(** * nats-basic: the pub/sub command-line client of cmd/nats-basic/natsPubSub.go

    A shallow embedding of [main], [publish] and [subscribe].  The program is
    a straight line of calls into the flag, log, os and nats.go packages, so
    the embedding is a small trace-and-exit monad: a computation yields the
    list of calls and writes it performed, and either a value or the way the
    process stopped.  The answers of the outside world (the broker, the
    operating system) are read from a [World] record. *)

From Stdlib Require Import Strings.String Strings.Ascii Strings.Byte List ZArith Bool Lia.
Import ListNotations.
Open Scope string_scope.

(** ** Go values *)

(** A Go [error] value, kept as its message. *)
Definition error := string.

(** The two signals [subscribe] registers for. *)
Inductive Signal := SIGINT | SIGTERM.

(** [os.Stdout] and [os.Stderr]. *)
Inductive Stream := Stdout | Stderr.

(** [nats.Msg]: the subject a message was published on and its payload. *)
Record Msg := { Subject : string; Data : list byte }.

(** The format strings handed to the logger, with their arguments. *)
Inductive LogMsg :=
| Connecting (url : string)
| ConnectFailed (url : string) (err : error)
| ConnectedOk
| Publishing (subject : string)
| PublishFailed (err : error)
| FlushFailed (err : error)
| Published (subject payload : string)
| Subscribing (subject : string)
| Received (subject payload : string)
| SubscribeFailed (err : error)
| UnsubscribeError (err : error)
| GotSignal (sig : Signal)
| DrainError (err : error)
| Bye.

(** What is written to a stream: the three validation errors of [main],
    the usage text of [flag.Usage], or a logger line with its prefix. *)
Inductive Text :=
| ErrRequired
| ErrBadMode (pub sub got : string)
| ErrMsgRequired
| UsageText
| LogLine (prefix : string) (m : LogMsg).

(** The observable actions of the process, in program order.  A call into
    nats.go records its arguments and the answer it got ([None] is a nil
    error). *)
Inductive Event :=
| Output (s : Stream) (t : Text)
| CallConnect (url name : string) (res : option error)
| CallPublish (subject : string) (data : list byte) (res : option error)
| CallFlush (res : option error)
| CallSubscribe (subject : string) (res : option error)
| CallNotify (sigs : list Signal)
| CallDrain (res : option error)
| CallUnsubscribe (res : option error)
| CallClose.

(** How a computation stops without returning: [os.Exit code], or the main
    goroutine blocked on a channel nobody sends on. *)
Inductive Stop := Exited (code : Z) | Blocked.

(** ** The monad *)

Definition M (A : Type) : Type := (list Event * (A + Stop))%type.

Definition ret {A} (a : A) : M A := ([], inl a).

Definition bind {A B} (m : M A) (k : A -> M B) : M B :=
  match m with
  | (t, inl a) => let (t', r) := k a in ((t ++ t')%list, r)
  | (t, inr s) => (t, inr s)
  end.

Notation "x <- m ;; k" := (bind m (fun x => k))
  (at level 61, m at next level, right associativity).
Notation "m ;; k" := (bind m (fun _ => k))
  (at level 61, right associativity).

Definition emit (e : Event) : M unit := ([e], inl tt).

(** [os.Exit]: the program terminates immediately. *)
Definition os_Exit {A} (code : Z) : M A := ([], inr (Exited code)).

(** A receive on a channel that never gets a value. *)
Definition block {A} : M A := ([], inr Blocked).

(** [defer d] followed by [body]: the deferred call runs when the
    surrounding function returns.  A function that stops in [os.Exit] (or
    never returns) does not return, and its deferred calls are not run. *)
Definition defer {A} (d : M unit) (body : M A) : M A :=
  a <- body ;; d ;; ret a.

Definition when (b : bool) (m : M unit) : M unit :=
  if b then m else ret tt.

Fixpoint forM_ {A} (l : list A) (f : A -> M unit) : M unit :=
  match l with
  | [] => ret tt
  | a :: l' => f a ;; forM_ l' f
  end.

(** ** The outside world *)

(** The answers the process gets from outside: the results of the nats.go
    calls, the messages the broker delivers to the subscription while the
    main goroutine waits, and the signal that ends the wait ([None]: no
    signal is ever sent). *)
Record World := {
  Connect_result : string -> string -> option error;
  Publish_result : string -> list byte -> option error;
  Flush_result : option error;
  Subscribe_result : string -> option error;
  inbound : list Msg;
  signal : option Signal;
  Drain_result : option error;
  Unsubscribe_result : option error
}.

(** ** package fmt, flag, log *)

Definition Fprintln (s : Stream) (t : Text) : M unit := emit (Output s t).

(** [flag.Usage] prints to the flag set's output, [os.Stderr] by default. *)
Definition flag_Usage : M unit := emit (Output Stderr UsageText).

Record Logger := { l_out : Stream; l_prefix : string }.

Definition log_New (out : Stream) (prefix : string) : Logger :=
  {| l_out := out; l_prefix := prefix |}.

Definition l_Printf (l : Logger) (m : LogMsg) : M unit :=
  emit (Output (l_out l) (LogLine (l_prefix l) m)).

Definition l_Println := l_Printf.

(** [Fatalf] is [Printf] followed by [os.Exit(1)]. *)
Definition l_Fatalf {A} (l : Logger) (m : LogMsg) : M A :=
  l_Printf l m ;; os_Exit 1.

(** ** package nats *)

Definition DefaultURL := "nats://127.0.0.1:4222".

Record Conn := { c_url : string; c_name : string }.

Record Subscription := { s_subject : string; s_cb : Msg -> M unit }.

Definition nats_Connect (w : World) (url name : string) : M (Conn + error) :=
  let res := Connect_result w url name in
  emit (CallConnect url name res) ;;
  ret (match res with
       | None => inl {| c_url := url; c_name := name |}
       | Some err => inr err
       end).

Definition Conn_Close (nc : Conn) : M unit := emit CallClose.

Definition Conn_Publish (w : World) (nc : Conn) (subject : string)
    (data : list byte) : M (option error) :=
  let res := Publish_result w subject data in
  emit (CallPublish subject data res) ;; ret res.

Definition Conn_Flush (w : World) (nc : Conn) : M (option error) :=
  emit (CallFlush (Flush_result w)) ;; ret (Flush_result w).

Definition Conn_Subscribe (w : World) (nc : Conn) (subject : string)
    (cb : Msg -> M unit) : M (Subscription + error) :=
  let res := Subscribe_result w subject in
  emit (CallSubscribe subject res) ;;
  ret (match res with
       | None => inl {| s_subject := subject; s_cb := cb |}
       | Some err => inr err
       end).

Definition Conn_Drain (w : World) (nc : Conn) : M (option error) :=
  emit (CallDrain (Drain_result w)) ;; ret (Drain_result w).

Definition Sub_Unsubscribe (w : World) (sub : Subscription) : M (option error) :=
  emit (CallUnsubscribe (Unsubscribe_result w)) ;; ret (Unsubscribe_result w).

(** [signal.Notify(sigCh, ...)] then [sig := <-sigCh].  While the main
    goroutine is blocked the library invokes the subscription's callback,
    on its own goroutine, for every message the broker delivers; the model
    serialises these invocations before the receive completes. *)
Definition signal_Notify (sigs : list Signal) : M unit := emit (CallNotify sigs).

Definition receive_signal (w : World) (sub : Subscription) : M Signal :=
  forM_ (inbound w) (s_cb sub) ;;
  match signal w with
  | Some sig => ret sig
  | None => block
  end.

(** ** natsPubSub.go *)

Definition modePub := "pub".
Definition modeSub := "sub".
Definition APP := "NATS-BASIC".

(** The four flag values after [flag.Parse]. *)
Record Flags := {
  mode : string;
  subject : string;
  msg : string;
  natsURL : string
}.

(** func publish(nc *nats.Conn, l *log.Logger, subject, msg string) *)
Definition publish (w : World) (nc : Conn) (l : Logger)
    (subject msg : string) : M unit :=
  l_Printf l (Publishing subject) ;;
  err <- Conn_Publish w nc subject (list_byte_of_string msg) ;;
  match err with
  | Some e => l_Fatalf l (PublishFailed e)
  | None => ret tt
  end ;;
  err <- Conn_Flush w nc ;;
  match err with
  | Some e => l_Fatalf l (FlushFailed e)
  | None => ret tt
  end ;;
  l_Printf l (Published subject msg).

(** The callback handed to [nc.Subscribe]. *)
Definition on_message (l : Logger) (m : Msg) : M unit :=
  l_Printf l (Received (Subject m) (string_of_list_byte (Data m))).

(** func subscribe(nc *nats.Conn, l *log.Logger, subject string) *)
Definition subscribe (w : World) (nc : Conn) (l : Logger)
    (subject : string) : M unit :=
  l_Printf l (Subscribing subject) ;;
  r <- Conn_Subscribe w nc subject (on_message l) ;;
  match r with
  | inr e => l_Fatalf l (SubscribeFailed e)
  | inl sub =>
      defer (err <- Sub_Unsubscribe w sub ;;
             match err with
             | Some e => l_Printf l (UnsubscribeError e)
             | None => ret tt
             end)
        (signal_Notify [SIGINT; SIGTERM] ;;
         sig <- receive_signal w sub ;;
         l_Printf l (GotSignal sig) ;;
         err <- Conn_Drain w nc ;;
         match err with
         | Some e => l_Printf l (DrainError e)
         | None => ret tt
         end ;;
         l_Println l Bye)
  end.

(** The three validation blocks at the top of [main]. *)
Definition validation (f : Flags) : M unit :=
  when ((mode f =? "") || (subject f =? ""))
    (Fprintln Stderr ErrRequired ;; flag_Usage ;; os_Exit 1) ;;
  when (negb (mode f =? modePub) && negb (mode f =? modeSub))
    (Fprintln Stderr (ErrBadMode modePub modeSub (mode f)) ;;
     flag_Usage ;; os_Exit 1) ;;
  when ((mode f =? modePub) && (msg f =? ""))
    (Fprintln Stderr ErrMsgRequired ;; flag_Usage ;; os_Exit 1).

(** The mode switch at the end of [main]; it has no default case. *)
Definition dispatch (w : World) (nc : Conn) (l : Logger) (f : Flags) : M unit :=
  if mode f =? modePub then publish w nc l (subject f) (msg f)
  else if mode f =? modeSub then subscribe w nc l (subject f)
  else ret tt.

(** func main(), from the parsed flags on. *)
Definition main (w : World) (f : Flags) : M unit :=
  validation f ;;
  let l := log_New Stdout (APP ++ " [" ++ mode f ++ "] ") in
  l_Printf l (Connecting (natsURL f)) ;;
  r <- nats_Connect w (natsURL f) APP ;;
  match r with
  | inr err => l_Fatalf l (ConnectFailed (natsURL f) err)
  | inl nc =>
      defer (Conn_Close nc)
        (l_Println l ConnectedOk ;;
         dispatch w nc l f)
  end.

(** ** Running the process *)

(** A process whose [main] returns exits with code 0. *)
Definition outcome_of (r : unit + Stop) : Stop :=
  match r with
  | inl _ => Exited 0
  | inr s => s
  end.

Definition trace (w : World) (f : Flags) : list Event := fst (main w f).
Definition outcome (w : World) (f : Flags) : Stop := outcome_of (snd (main w f)).

(** A broker that answers every call with success. *)
Definition fine (sig : option Signal) (msgs : list Msg) : World :=
  {| Connect_result := fun _ _ => None;
     Publish_result := fun _ _ => None;
     Flush_result := None;
     Subscribe_result := fun _ => None;
     inbound := msgs;
     signal := sig;
     Drain_result := None;
     Unsubscribe_result := None |}.

Definition hello : Flags :=
  {| mode := "pub"; subject := "greetings"; msg := "Hello NATS World!";
     natsURL := DefaultURL |}.

Definition listen : Flags :=
  {| mode := "sub"; subject := "greetings"; msg := ""; natsURL := DefaultURL |}.

(** ** The conditions of the validation blocks *)

(** None of the three guards of [validation] fires. *)
Definition passes_validation (f : Flags) : bool :=
  negb ((mode f =? "") || (subject f =? "")) &&
  negb (negb (mode f =? modePub) && negb (mode f =? modeSub)) &&
  negb ((mode f =? modePub) && (msg f =? "")).

(** The error line of the first guard that fires. *)
Definition validation_error (f : Flags) : Text :=
  if (mode f =? "") || (subject f =? "") then ErrRequired
  else if negb (mode f =? modePub) && negb (mode f =? modeSub)
       then ErrBadMode modePub modeSub (mode f)
       else ErrMsgRequired.

(** The lines the callback logs for a list of delivered messages. *)
Definition deliveries (l : Logger) (ms : list Msg) : list Event :=
  map (fun m => Output (l_out l)
                  (LogLine (l_prefix l)
                     (Received (Subject m) (string_of_list_byte (Data m))))) ms.

(** The line a non-fatal error leaves in the log. *)
Definition logged (l : Logger) (k : error -> LogMsg) (res : option error)
  : list Event :=
  match res with
  | Some e => [Output (l_out l) (LogLine (l_prefix l) (k e))]
  | None => []
  end.

Definition logger_of (m : string) : Logger :=
  log_New Stdout (APP ++ " [" ++ m ++ "] ").

(** ** Observations on a trace *)

Definition is_connect (e : Event) : bool :=
  match e with CallConnect _ _ _ => true | _ => false end.

Definition is_publish (e : Event) : bool :=
  match e with CallPublish _ _ _ => true | _ => false end.

Definition is_close (e : Event) : bool :=
  match e with CallClose => true | _ => false end.

Definition on_stderr (e : Event) : bool :=
  match e with Output Stderr _ => true | _ => false end.

(** The first statement of [publish], and the first statement of
    [subscribe]: a branch of the mode switch has been entered exactly when
    its first line is in the log. *)
Definition enters_publish (e : Event) : bool :=
  match e with Output _ (LogLine _ (Publishing _)) => true | _ => false end.

Definition enters_subscribe (e : Event) : bool :=
  match e with Output _ (LogLine _ (Subscribing _)) => true | _ => false end.

Definition publish_runs (t : list Event) : nat := length (filter enters_publish t).
Definition subscribe_runs (t : list Event) : nat :=
  length (filter enters_subscribe t).

(** Exactly one of the two mode branches executes. *)
Definition exactly_one_branch (t : list Event) : Prop :=
  publish_runs t + subscribe_runs t = 1.

(** The messages a publisher handed to the broker: the publishes that
    returned a nil error. *)
Fixpoint sent (t : list Event) : list Msg :=
  match t with
  | [] => []
  | CallPublish s d None :: t' => {| Subject := s; Data := d |} :: sent t'
  | _ :: t' => sent t'
  end.

(** The (subject, payload) pairs the subscription callback logged. *)
Fixpoint received (t : list Event) : list (string * string) :=
  match t with
  | [] => []
  | Output _ (LogLine _ (Received s p)) :: t' => (s, p) :: received t'
  | _ :: t' => received t'
  end.

Definition set_url (u : string) (f : Flags) : Flags :=
  {| mode := mode f; subject := subject f; msg := msg f; natsURL := u |}.

(** ** The failure taxonomy of the exit codes *)

Inductive Failure :=
| ValidationFailure
| ConnectionFailure
| PublishFailure
| FlushFailure
| SubscribeFailure.

(** What an invocation runs into, read off the flags and the answers of
    the world: a failure, a normal end, or an endless wait for a signal. *)
Inductive Scenario := Normal | Fails (k : Failure) | Waits.

Definition scenario (w : World) (f : Flags) : Scenario :=
  if negb (passes_validation f) then Fails ValidationFailure
  else
    match Connect_result w (natsURL f) APP with
    | Some _ => Fails ConnectionFailure
    | None =>
        if mode f =? modePub then
          match Publish_result w (subject f) (list_byte_of_string (msg f)) with
          | Some _ => Fails PublishFailure
          | None =>
              match Flush_result w with
              | Some _ => Fails FlushFailure
              | None => Normal
              end
          end
        else
          match Subscribe_result w (subject f) with
          | Some _ => Fails SubscribeFailure
          | None =>
              match signal w with
              | Some _ => Normal
              | None => Waits
              end
          end
    end.

(** The diagnostic text that belongs to a failure. *)
Definition diagnostic (k : Failure) (t : Text) : bool :=
  match k, t with
  | ValidationFailure, (ErrRequired | ErrBadMode _ _ _ | ErrMsgRequired) => true
  | ConnectionFailure, LogLine _ (ConnectFailed _ _) => true
  | PublishFailure, LogLine _ (PublishFailed _) => true
  | FlushFailure, LogLine _ (FlushFailed _) => true
  | SubscribeFailure, LogLine _ (SubscribeFailed _) => true
  | _, _ => false
  end.

(** ** The state machine of subscribe mode

    The five states of the spec, and how the calls of the process move
    through them: a connect that succeeds enters [Connected], a subscribe
    that succeeds enters [Subscribed], the drain enters [Draining], and
    [nc.Close] enters [Closed]. *)

Inductive State := Idle | Connected | Subscribed | Draining | Closed.

Definition State_eqb (a b : State) : bool :=
  match a, b with
  | Idle, Idle | Connected, Connected | Subscribed, Subscribed
  | Draining, Draining | Closed, Closed => true
  | _, _ => false
  end.

Definition observe (s : State) (e : Event) : State :=
  match e with
  | CallConnect _ _ None => Connected
  | CallSubscribe _ None => Subscribed
  | CallDrain _ => Draining
  | CallClose => Closed
  | _ => s
  end.

(** The states entered along a trace, from state [s]. *)
Fixpoint walk (s : State) (t : list Event) : list State :=
  match t with
  | [] => []
  | e :: t' =>
      let s' := observe s e in
      if State_eqb s' s then walk s t' else s' :: walk s' t'
  end.

Definition final (s : State) (t : list Event) : State := fold_left observe t s.

(** The path of a run: [Idle], then the states its trace enters. *)
Definition state_path (w : World) (f : Flags) : list State :=
  (Idle :: walk Idle (trace w f))%list.

(** The chain of the spec's machine. *)
Definition chain : list State :=
  [Idle; Connected; Subscribed; Draining; Closed].


(** ** The broker *)

Module Broker.

(** Modelled from the spec: the broker is an external collaborator (the
    NATS server), not code of this repository.  Its contract in the spec:
    a subject is a dot-delimited name; in a subscription [*] matches
    exactly one segment and [>] matches one or more trailing segments;
    every published message is delivered, payload unchanged, to each
    subscription whose subject matches. *)
Fixpoint split_dot (s cur : string) : list string :=
  match s with
  | EmptyString => [cur]
  | String c s' =>
      if Ascii.eqb c "."%char then cur :: split_dot s' ""
      else split_dot s' (cur ++ String c "")
  end.

Definition tokens (s : string) : list string := split_dot s "".

Fixpoint matches (pat subj : list string) : bool :=
  match pat, subj with
  | [], [] => true
  | p :: pat', t :: subj' =>
      if (p =? ">") && (match pat' with [] => true | _ => false end) then true
      else if p =? "*" then matches pat' subj'
      else (p =? t) && matches pat' subj'
  | _, _ => false
  end.

Definition route (pattern : string) (published : list Msg) : list Msg :=
  filter (fun m => matches (tokens pattern) (tokens (Subject m))) published.

End Broker.

(** ** Concrete worlds and invocations *)

(** No broker listens at the URL. *)
Definition unreachable : World :=
  {| Connect_result := fun _ _ => Some "nats: no servers available for connection";
     Publish_result := fun _ _ => None;
     Flush_result := None;
     Subscribe_result := fun _ => None;
     inbound := [];
     signal := None;
     Drain_result := None;
     Unsubscribe_result := None |}.

(** The broker is there; the client library refuses the subject. *)
Definition bad_subject : World :=
  {| Connect_result := fun _ _ => None;
     Publish_result := fun _ _ => Some "nats: invalid subject";
     Flush_result := None;
     Subscribe_result := fun _ => Some "nats: invalid subject";
     inbound := [];
     signal := Some SIGINT;
     Drain_result := None;
     Unsubscribe_result := None |}.

(** The drain at shutdown fails. *)
Definition drain_fails : World :=
  {| Connect_result := fun _ _ => None;
     Publish_result := fun _ _ => None;
     Flush_result := None;
     Subscribe_result := fun _ => None;
     inbound := [];
     signal := Some SIGTERM;
     Drain_result := Some "nats: connection closed";
     Unsubscribe_result := Some "nats: connection closed" |}.

Definition listen_spaced : Flags :=
  {| mode := "sub"; subject := "greetings all"; msg := "";
     natsURL := DefaultURL |}.

Definition no_mode : Flags :=
  {| mode := ""; subject := "greetings"; msg := "hi"; natsURL := DefaultURL |}.

Definition no_msg : Flags :=
  {| mode := "pub"; subject := "greetings"; msg := ""; natsURL := DefaultURL |}.

Definition login : Flags :=
  {| mode := "pub"; subject := "events.user.login";
     msg := "{user:alice}"; natsURL := DefaultURL |}.

Definition order : Flags :=
  {| mode := "pub"; subject := "events.order.created";
     msg := "{order:42}"; natsURL := DefaultURL |}.

Definition all_events : Flags :=
  {| mode := "sub"; subject := "events.>"; msg := ""; natsURL := DefaultURL |}.

(** The command lines [-mode pub -subject s -msg m -url u] and
    [-mode sub -subject s -url u]. *)
Definition pub (s m u : string) : Flags :=
  {| mode := modePub; subject := s; msg := m; natsURL := u |}.

Definition sub (s u : string) : Flags :=
  {| mode := modeSub; subject := s; msg := ""; natsURL := u |}.

(** ** Further observations *)

Definition is_flush (e : Event) : bool :=
  match e with CallFlush _ => true | _ => false end.

(** The calls that take the connection down: drain, unsubscribe, close. *)
Definition is_teardown (e : Event) : bool :=
  match e with
  | CallDrain _ | CallUnsubscribe _ | CallClose => true
  | _ => false
  end.

(** The calls made on an established connection or its subscription. *)
Definition uses_connection (e : Event) : bool :=
  match e with
  | CallPublish _ _ _ | CallFlush _ | CallSubscribe _ _ | CallDrain _
  | CallUnsubscribe _ | CallClose => true
  | _ => false
  end.

(** What only [publish] does, and what only [subscribe] does. *)
Definition publish_only (e : Event) : bool :=
  match e with
  | CallPublish _ _ _ | CallFlush _ => true
  | Output _ (LogLine _ (Publishing _ | PublishFailed _ | FlushFailed _
                         | Published _ _)) => true
  | _ => false
  end.

Definition subscribe_only (e : Event) : bool :=
  match e with
  | CallSubscribe _ _ | CallNotify _ | CallDrain _ | CallUnsubscribe _ => true
  | Output _ (LogLine _ (Subscribing _ | Received _ _ | SubscribeFailed _
                         | UnsubscribeError _ | GotSignal _ | DrainError _
                         | Bye)) => true
  | _ => false
  end.

(** A write is in its place: standard output carries only lines of the
    logger, with the prefix built from the mode; standard error carries
    only the validation errors and the usage text. *)
Definition in_place (md : string) (e : Event) : bool :=
  match e with
  | Output Stdout (LogLine p _) => p =? APP ++ " [" ++ md ++ "] "
  | Output Stdout _ => false
  | Output Stderr (LogLine _ _) => false
  | _ => true
  end.

Definition set_msg (m : string) (f : Flags) : Flags :=
  {| mode := mode f; subject := subject f; msg := m; natsURL := natsURL f |}.

Definition long_mode : Flags :=
  {| mode := "publish"; subject := "greetings"; msg := "hi";
     natsURL := DefaultURL |}.

(** The publish is refused, for instance for a payload over the server's
    limit. *)
Definition publish_fails : World :=
  {| Connect_result := fun _ _ => None;
     Publish_result := fun _ _ => Some "nats: maximum payload exceeded";
     Flush_result := None;
     Subscribe_result := fun _ => None;
     inbound := [];
     signal := None;
     Drain_result := None;
     Unsubscribe_result := None |}.

Definition greeting : Msg :=
  {| Subject := "greetings"; Data := list_byte_of_string "Hello NATS World!" |}.

(** ** The shell scripts

    The helper scripts of the repository: the one that creates the
    password entries of the .env file, the one that runs an executable
    with the variables of an env file, and the two that start the
    nats-server.  A script yields the steps it performs, in order, and its
    exit status; what the machine answers is read from a record. *)

Module Scripts.

(** *** The sed program that prepares an env file for [source]

    [sed -e '/^#/d;/^\s*$/d' -e "s/'/'\\''/g" -e "s/=\(.*\)/='\1'/g"],
    line by line. *)

















(** *** Files as bytes *)





(** *** Steps *)

Inductive Note :=
| Banner
| NumArgs (n : nat)
| Usage
| WillTry (bin envf : string) (args : list string)
| WillExecute (bin : string) (args : list string)
| NotExecutable
| EnvNotFound (envf : string)
| ExpectUser
| NoNatsCli
| Generating (user : string)
| ShowUser (user : string)
| ShowPassword (password : string)
| WillEncrypt
| ShowEncrypted (hash : string)
| Adding
| Closing
| CheckDir
| CreatingDir
| CheckRunning
| AlreadyRunning
| CheckEnv
| NoEnvFile
| CheckVars
| VarsNotSet
| AboutToRun (user hash : string)
| PressCtrlC.

(** [Source f]: the script sources, in its own shell, what the sed
    program makes of file [f]. *)
Inductive Step :=
| Say (n : Note)
| Mkdir (path : string)
| Source (file : string)
| Exec (cmd : string) (args : list string).

(** What sourcing a prepared env file does to the script, an answer of
    the machine.  [Assigns vars]: the text only assigned variables, the
    ones [vars] gives a value, and changed nothing else in the shell.
    [Otherwise steps status]: the text did something more (a line that is
    not an assignment is run as a command, [exit] ends the script, [set]
    changes how the rest is run); [steps] is all the script does after it
    started sourcing, and [status] its exit status. *)
Inductive Sourcing :=
| Assigns (vars : string -> option string)
| Otherwise (steps : list Step) (status : Z).

(** *** The script that adds a NATS user and password to .env *)




(** *** The script that runs an executable with an env file *)



(** *** The scripts that start the nats-server *)

Record Machine := {
  data_dir_exists : bool;               (* [ -d ./nats_data ] *)
  servers_running : nat;                (* pgrep [n]ats-server | wc -l *)
  env_exists : bool;                    (* [ -f .env ] *)
  sourced_env : Sourcing;               (* source <(sed ... .env) *)
  inherited : string -> string;         (* the variables the script starts with *)
  server_status : list string -> Z      (* exit status of nats-server *)
}.

Definition prepare_dir (m : Machine) : list Step :=
  (Say Banner :: Say CheckDir ::
   (if data_dir_exists m then [] else [Say CreatingDir; Mkdir "./nats_data"])
   ++ [Say CheckRunning])%list.

Definition server_args : list string :=
  ["-js"; "-DV"; "-sd"; "./nats_data"; "-m"; "8222"].

(** With user and password from .env. *)
Definition start_server_auth (m : Machine) : list Step * Z :=
  if (0 <? servers_running m)%nat then
    ((prepare_dir m ++ [Say AlreadyRunning])%list, 1%Z)
  else if negb (env_exists m) then
    ((prepare_dir m ++ [Say CheckEnv; Say NoEnvFile])%list, 1%Z)
  else
    match sourced_env m with
    | Otherwise steps status =>
        ((prepare_dir m ++ [Say CheckEnv; Source ".env"] ++ steps)%list, status)
    | Assigns vars =>
        let value n := match vars n with
                       | Some v => v
                       | None => inherited m n
                       end in
        let user := value "NATS_USER" in
        let hash := value "NATS_ENCRYPTED_PASSWORD" in
        let hd := (prepare_dir m
                   ++ [Say CheckEnv; Source ".env"; Say CheckVars])%list in
        if (user =? "") || (hash =? "") then ((hd ++ [Say VarsNotSet])%list, 1%Z)
        else
          let args := (server_args ++ ["--user"; user; "--pass"; hash])%list in
          ((hd ++ [Say PressCtrlC; Say (AboutToRun user hash);
                   Exec "nats-server" args])%list,
           server_status m args)
    end.

(** Without authentication. *)
Definition start_server_dev (m : Machine) : list Step * Z :=
  if (0 <? servers_running m)%nat then
    ((prepare_dir m ++ [Say AlreadyRunning])%list, 1%Z)
  else
    ((prepare_dir m ++ [Say PressCtrlC; Exec "nats-server" server_args])%list,
     server_status m server_args).

Definition is_exec (s : Step) : bool :=
  match s with Exec _ _ => true | _ => false end.

Definition is_mkdir (s : Step) : bool :=
  match s with Mkdir _ => true | _ => false end.

End Scripts.



Definition idle_machine : Scripts.Machine :=
  {| Scripts.data_dir_exists := false;
     Scripts.servers_running := 0;
     Scripts.env_exists := true;
     Scripts.sourced_env :=
       Scripts.Assigns (fun n => if n =? "NATS_USER" then Some "alice"
                                 else if n =? "NATS_ENCRYPTED_PASSWORD"
                                      then Some "$2a$11$x" else None);
     Scripts.inherited := fun _ => "";
     Scripts.server_status := fun _ => 0%Z |}.

Definition busy_machine : Scripts.Machine :=
  {| Scripts.data_dir_exists := false;
     Scripts.servers_running := 1;
     Scripts.env_exists := true;
     Scripts.sourced_env := Scripts.Assigns (fun _ => None);
     Scripts.inherited := fun _ => "";
     Scripts.server_status := fun _ => 0%Z |}.

(** * Basic facts *)

Lemma bind_ret_l {A B} (a : A) (k : A -> M B) : bind (ret a) k = k a.
Proof. unfold bind, ret. destruct (k a). reflexivity. Qed.

Lemma bind_emit {B} (e : Event) (k : unit -> M B) :
  bind (emit e) k = (e :: fst (k tt), snd (k tt)).
Proof. unfold bind, emit. destruct (k tt). reflexivity. Qed.

Lemma bind_stop {A B} (t : list Event) (s : Stop) (k : A -> M B) :
  bind (t, inr s) k = (t, inr s).
Proof. reflexivity. Qed.

Lemma bind_value {A B} (t : list Event) (a : A) (k : A -> M B) :
  bind (t, inl a) k = ((t ++ fst (k a))%list, snd (k a)).
Proof. unfold bind. destruct (k a). reflexivity. Qed.

Lemma forM_on_message (l : Logger) (ms : list Msg) :
  forM_ ms (on_message l) = (deliveries l ms, inl tt).
Proof.
  induction ms as [|m ms IH]; [reflexivity|].
  cbn [forM_ deliveries map]. unfold on_message at 1, l_Printf.
  rewrite bind_emit, IH. reflexivity.
Qed.

Lemma validation_run (f : Flags) :
  validation f =
  if passes_validation f then ([], inl tt)
  else ([Output Stderr (validation_error f); Output Stderr UsageText],
        inr (Exited 1)).
Proof.
  unfold validation, passes_validation, validation_error, when.
  destruct ((mode f =? "") || (subject f =? "")); [reflexivity|].
  destruct (negb (mode f =? modePub) && negb (mode f =? modeSub));
    [reflexivity|].
  destruct ((mode f =? modePub) && (msg f =? "")); reflexivity.
Qed.

Lemma passes_validation_mode (f : Flags) :
  passes_validation f = true -> mode f = modePub \/ mode f = modeSub.
Proof.
  unfold passes_validation. intros H.
  destruct (mode f =? modePub) eqn:Ep; [left; now apply String.eqb_eq|].
  destruct (mode f =? modeSub) eqn:Es; [right; now apply String.eqb_eq|].
  destruct ((mode f =? "") || (subject f =? "")); cbn in H; discriminate.
Qed.

(** An invocation that fails validation: error line, usage text, exit 1. *)
Lemma main_invalid (w : World) (f : Flags) :
  passes_validation f = false ->
  main w f = ([Output Stderr (validation_error f); Output Stderr UsageText],
              inr (Exited 1)).
Proof.
  intros H. unfold main. rewrite validation_run, H. reflexivity.
Qed.

(** The whole run of a valid publish invocation, by the answers of the
    broker. *)
Lemma main_pub (w : World) (s m u : string) :
  s <> "" -> m <> "" ->
  main w {| mode := modePub; subject := s; msg := m; natsURL := u |} =
  let l := logger_of modePub in
  let hd := [Output Stdout (LogLine (l_prefix l) (Connecting u));
             CallConnect u APP (Connect_result w u APP)] in
  match Connect_result w u APP with
  | Some e =>
      ((hd ++ [Output Stdout (LogLine (l_prefix l) (ConnectFailed u e))])%list,
       inr (Exited 1))
  | None =>
      let pb := [Output Stdout (LogLine (l_prefix l) ConnectedOk);
                 Output Stdout (LogLine (l_prefix l) (Publishing s));
                 CallPublish s (list_byte_of_string m)
                   (Publish_result w s (list_byte_of_string m))] in
      match Publish_result w s (list_byte_of_string m) with
      | Some e =>
          ((hd ++ pb ++
            [Output Stdout (LogLine (l_prefix l) (PublishFailed e))])%list,
           inr (Exited 1))
      | None =>
          match Flush_result w with
          | Some e =>
              ((hd ++ pb ++
                [CallFlush (Some e);
                 Output Stdout (LogLine (l_prefix l) (FlushFailed e))])%list,
               inr (Exited 1))
          | None =>
              ((hd ++ pb ++
                [CallFlush None;
                 Output Stdout (LogLine (l_prefix l) (Published s m));
                 CallClose])%list,
               inl tt)
          end
      end
  end.
Proof.
  intros Hs Hm. apply String.eqb_neq in Hs, Hm.
  unfold main. rewrite validation_run.
  unfold passes_validation. cbn [mode subject msg natsURL].
  rewrite Hs, Hm. unfold dispatch, publish. cbn [mode subject msg natsURL].
  remember (list_byte_of_string m) as b eqn:Hb. clear Hb.
  destruct (Connect_result w u APP) eqn:Ec; cbn; rewrite ?Ec; [reflexivity|].
  destruct (Publish_result w s b) eqn:Ep; cbn; rewrite ?Ec, ?Ep; [reflexivity|].
  destruct (Flush_result w) eqn:Ef; cbn; rewrite ?Ec, ?Ep, ?Ef; reflexivity.
Qed.

(** The whole run of a subscribe invocation with a subject, by the answers
    of the broker and the signal. *)
Lemma main_sub (w : World) (s m u : string) :
  s <> "" ->
  main w {| mode := modeSub; subject := s; msg := m; natsURL := u |} =
  let l := logger_of modeSub in
  let hd := [Output Stdout (LogLine (l_prefix l) (Connecting u));
             CallConnect u APP (Connect_result w u APP)] in
  match Connect_result w u APP with
  | Some e =>
      ((hd ++ [Output Stdout (LogLine (l_prefix l) (ConnectFailed u e))])%list,
       inr (Exited 1))
  | None =>
      let sb := [Output Stdout (LogLine (l_prefix l) ConnectedOk);
                 Output Stdout (LogLine (l_prefix l) (Subscribing s));
                 CallSubscribe s (Subscribe_result w s)] in
      match Subscribe_result w s with
      | Some e =>
          ((hd ++ sb ++
            [Output Stdout (LogLine (l_prefix l) (SubscribeFailed e))])%list,
           inr (Exited 1))
      | None =>
          let wt := (CallNotify [SIGINT; SIGTERM]
                     :: deliveries l (inbound w))%list in
          match signal w with
          | None => ((hd ++ sb ++ wt)%list, inr Blocked)
          | Some sig =>
              ((hd ++ sb ++ wt ++
                [Output Stdout (LogLine (l_prefix l) (GotSignal sig));
                 CallDrain (Drain_result w)] ++
                logged l DrainError (Drain_result w) ++
                [Output Stdout (LogLine (l_prefix l) Bye);
                 CallUnsubscribe (Unsubscribe_result w)] ++
                logged l UnsubscribeError (Unsubscribe_result w) ++
                [CallClose])%list,
               inl tt)
          end
      end
  end.
Proof.
  intros Hs. apply String.eqb_neq in Hs.
  unfold main. rewrite validation_run.
  unfold passes_validation. cbn [mode subject msg natsURL].
  rewrite Hs. unfold dispatch, subscribe, receive_signal, Conn_Subscribe.
  cbn [mode subject msg natsURL].
  destruct (Connect_result w u APP) eqn:Ec; cbn; rewrite ?Ec; [reflexivity|].
  destruct (Subscribe_result w s) eqn:Eb; cbn; rewrite ?Ec, ?Eb; [reflexivity|].
  rewrite forM_on_message.
  destruct (signal w) as [sig|]; cbn; [|now rewrite app_nil_r].
  destruct (Drain_result w), (Unsubscribe_result w); cbn;
    rewrite ?app_nil_r, <- ?app_assoc; reflexivity.
Qed.

(** The flags that pass validation: a publish invocation with a subject and
    a message, or a subscribe invocation with a subject. *)
Lemma flags_cases (f : Flags) :
  passes_validation f = true ->
  (exists s m u, f = {| mode := modePub; subject := s; msg := m; natsURL := u |}
                 /\ s <> "" /\ m <> "") \/
  (exists s m u, f = {| mode := modeSub; subject := s; msg := m; natsURL := u |}
                 /\ s <> "").
Proof.
  intros H. destruct (passes_validation_mode f H) as [Hm|Hm];
    destruct f as [md s m u]; cbn in Hm; subst md;
    unfold passes_validation in H; cbn in H;
    destruct (s =? "") eqn:Es; try discriminate.
  - destruct (m =? "") eqn:Em; try discriminate.
    left. exists s, m, u. repeat split; now apply String.eqb_neq.
  - right. exists s, m, u. split; [reflexivity | now apply String.eqb_neq].
Qed.

Lemma filter_deliveries (p : Event -> bool) (l : Logger) (ms : list Msg) :
  (forall s pre subj pay, p (Output s (LogLine pre (Received subj pay))) = false) ->
  filter p (deliveries l ms) = [].
Proof.
  intros Hp. induction ms as [|m ms IH]; [reflexivity|].
  cbn. rewrite Hp. exact IH.
Qed.

Lemma In_deliveries (l : Logger) (ms : list Msg) (e : Event) :
  In e (deliveries l ms) -> exists s pre subj pay,
    e = Output s (LogLine pre (Received subj pay)).
Proof.
  unfold deliveries. rewrite in_map_iff. intros [m [<- _]]. eauto.
Qed.

Ltac sift :=
  repeat (cbn [filter app fst snd length enters_publish enters_subscribe
               is_connect is_publish is_close on_stderr logged l_out l_prefix
               logger_of log_New];
          rewrite ?filter_app, ?filter_deliveries by reflexivity).

(** [nc.Close] is called exactly on the runs where [main] returns: once,
    and the process then exits with code 0.  No run that ends in [os.Exit]
    or waits for a signal calls it. *)
Lemma close_calls (w : World) (f : Flags) :
  filter is_close (trace w f) =
  match outcome w f with
  | Exited 0 => [CallClose]
  | _ => []
  end.
Proof.
  unfold trace, outcome.
  destruct (passes_validation f) eqn:V.
  2:{ rewrite (main_invalid w f V). reflexivity. }
  destruct (flags_cases f V) as [(s & m & u & -> & Hs & Hm)
                                |(s & m & u & -> & Hs)].
  - rewrite (main_pub w s m u Hs Hm). cbv zeta.
    destruct (Connect_result w u APP);
      [|destruct (Publish_result w s (list_byte_of_string m));
        [|destruct (Flush_result w)]]; reflexivity.
  - rewrite (main_sub w s m u Hs). cbv zeta.
    destruct (Connect_result w u APP);
      [|destruct (Subscribe_result w s);
        [|destruct (signal w);
          [destruct (Drain_result w), (Unsubscribe_result w)|]]];
      sift; reflexivity.
Qed.

(** The subject matching of the broker on the examples of the README. *)
Example matches_tail_wildcard :
  Broker.matches (Broker.tokens "events.>") (Broker.tokens "events.user.login")
  = true
  /\ Broker.matches (Broker.tokens "events.>") (Broker.tokens "events") = false
  /\ Broker.matches (Broker.tokens "events.>") (Broker.tokens "orders.new")
     = false.
Proof. repeat split. Qed.

Example matches_token_wildcard :
  Broker.matches (Broker.tokens "sensor.*.temperature")
    (Broker.tokens "sensor.kitchen.temperature") = true
  /\ Broker.matches (Broker.tokens "sensor.*.temperature")
       (Broker.tokens "sensor.kitchen.oven.temperature") = false
  /\ Broker.matches (Broker.tokens "greetings") (Broker.tokens "greetings")
     = true.
Proof. repeat split. Qed.

(** * The claims *)

(** C1 (the connection is closed on every exit path): not at a fatal exit.
    With [-mode sub -subject "greetings all"] against a reachable broker
    the connection is established, [nc.Subscribe] refuses the subject,
    [Fatalf] exits with code 1, and the deferred [nc.Close] never runs. *)
Theorem C1_fatal_exit_skips_close :
  main bad_subject listen_spaced =
    ([Output Stdout (LogLine "NATS-BASIC [sub] " (Connecting DefaultURL));
      CallConnect DefaultURL APP None;
      Output Stdout (LogLine "NATS-BASIC [sub] " ConnectedOk);
      Output Stdout (LogLine "NATS-BASIC [sub] " (Subscribing "greetings all"));
      CallSubscribe "greetings all" (Some "nats: invalid subject");
      Output Stdout
        (LogLine "NATS-BASIC [sub] " (SubscribeFailed "nats: invalid subject"))],
     inr (Exited 1))
  /\ In (CallConnect DefaultURL APP None) (trace bad_subject listen_spaced)
  /\ filter is_close (trace bad_subject listen_spaced) = []
  /\ outcome bad_subject listen_spaced = Exited 1.
Proof. repeat split; try reflexivity. cbn. auto. Qed.

(** C2: when the -mode value or the -subject value is empty the process
    prints the error and the usage text, exits with code 1, and never
    calls connect. *)
Theorem C2_missing_mode_or_subject (w : World) (f : Flags) :
  mode f = "" \/ subject f = "" ->
  outcome w f = Exited 1
  /\ trace w f = [Output Stderr ErrRequired; Output Stderr UsageText]
  /\ filter is_connect (trace w f) = [].
Proof.
  intros H.
  assert (G : (mode f =? "") || (subject f =? "") = true).
  { destruct H as [H|H]; rewrite H; cbn; [reflexivity | apply orb_true_r]. }
  assert (V : passes_validation f = false).
  { unfold passes_validation. rewrite G. reflexivity. }
  unfold outcome, trace. rewrite (main_invalid w f V).
  unfold validation_error. rewrite G. repeat split.
Qed.

Lemma C2_missing_mode_or_subject_witness :
  (mode no_mode = "" \/ subject no_mode = "")
  /\ outcome unreachable no_mode = Exited 1
  /\ trace unreachable no_mode = [Output Stderr ErrRequired; Output Stderr UsageText]
  /\ filter is_connect (trace unreachable no_mode) = [].
Proof.
  split; [left; reflexivity|].
  apply (C2_missing_mode_or_subject unreachable no_mode). left. reflexivity.
Defined.

(** C3: in mode "pub" with an empty -msg value validation fails: an error
    line and the usage text go to standard error, the process exits with
    code 1, and connect is never called. *)
Theorem C3_pub_without_msg (w : World) (f : Flags) :
  mode f = modePub -> msg f = "" ->
  outcome w f = Exited 1
  /\ trace w f =
       [Output Stderr (if subject f =? "" then ErrRequired else ErrMsgRequired);
        Output Stderr UsageText]
  /\ filter is_connect (trace w f) = [].
Proof.
  intros Hmode Hmsg.
  assert (V : passes_validation f = false).
  { unfold passes_validation. rewrite Hmode, Hmsg. cbn.
    destruct (subject f =? ""); reflexivity. }
  unfold outcome, trace. rewrite (main_invalid w f V).
  unfold validation_error. rewrite Hmode. cbn.
  destruct (subject f =? ""); repeat split.
Qed.

Lemma C3_pub_without_msg_witness :
  outcome unreachable no_msg = Exited 1
  /\ trace unreachable no_msg = [Output Stderr ErrMsgRequired; Output Stderr UsageText]
  /\ filter is_connect (trace unreachable no_msg) = [].
Proof.
  apply (C3_pub_without_msg unreachable no_msg); reflexivity.
Defined.

(** C4, as stated, fails: valid flags and no broker at the URL, and neither
    branch of the mode switch executes. *)
Lemma C4_no_branch_without_connection :
  passes_validation hello = true
  /\ publish_runs (trace unreachable hello) = 0
  /\ subscribe_runs (trace unreachable hello) = 0
  /\ ~ exactly_one_branch (trace unreachable hello).
Proof.
  repeat split; try reflexivity. unfold exactly_one_branch. cbn. discriminate.
Qed.

(** C4, amended: for every invocation that passes validation the mode is
    "pub" or "sub" and the two branches never both execute; once the
    connection is established exactly one executes, [publish] in mode
    "pub" and [subscribe] in mode "sub"; when the connection attempt fails
    neither executes. *)
Theorem C4_one_branch_when_connected (w : World) (f : Flags) :
  passes_validation f = true ->
  (mode f = modePub \/ mode f = modeSub)
  /\ publish_runs (trace w f) + subscribe_runs (trace w f) <= 1
  /\ (Connect_result w (natsURL f) APP = None ->
      exactly_one_branch (trace w f)
      /\ (mode f = modePub ->
          publish_runs (trace w f) = 1 /\ subscribe_runs (trace w f) = 0)
      /\ (mode f = modeSub ->
          publish_runs (trace w f) = 0 /\ subscribe_runs (trace w f) = 1))
  /\ (Connect_result w (natsURL f) APP <> None ->
      publish_runs (trace w f) = 0 /\ subscribe_runs (trace w f) = 0).
Proof.
  intros V. split; [now apply passes_validation_mode|].
  unfold exactly_one_branch, publish_runs, subscribe_runs, trace.
  destruct (flags_cases f V) as [(s & m & u & -> & Hs & Hm)
                                |(s & m & u & -> & Hs)];
    cbn [mode natsURL].
  - rewrite (main_pub w s m u Hs Hm). cbv zeta.
    destruct (Connect_result w u APP) eqn:Ec.
    { sift. split; [lia|]. split; [discriminate|]. intros _. split; reflexivity. }
    destruct (Publish_result w s (list_byte_of_string m));
      [|destruct (Flush_result w)]; sift;
      (split; [lia|]); (split; [|intros H; now elim H]);
      intros _; repeat split; try reflexivity; discriminate.
  - rewrite (main_sub w s m u Hs). cbv zeta.
    destruct (Connect_result w u APP) eqn:Ec.
    { sift. split; [lia|]. split; [discriminate|]. intros _. split; reflexivity. }
    destruct (Subscribe_result w s);
      [|destruct (signal w);
        [destruct (Drain_result w), (Unsubscribe_result w)|]]; sift;
      (split; [lia|]); (split; [|intros H; now elim H]);
      intros _; repeat split; try reflexivity; discriminate.
Qed.

Lemma C4_one_branch_when_connected_witness :
  (exactly_one_branch (trace (fine (Some SIGINT) []) listen)
   /\ publish_runs (trace (fine (Some SIGINT) []) listen) = 0
   /\ subscribe_runs (trace (fine (Some SIGINT) []) listen) = 1)
  /\ (publish_runs (trace unreachable listen) = 0
      /\ subscribe_runs (trace unreachable listen) = 0).
Proof.
  split.
  - destruct (C4_one_branch_when_connected (fine (Some SIGINT) []) listen
                eq_refl) as (_ & _ & H & _).
    destruct (H eq_refl) as (H1 & _ & H3).
    split; [exact H1 | exact (H3 eq_refl)].
  - destruct (C4_one_branch_when_connected unreachable listen eq_refl)
      as (_ & _ & _ & H).
    apply H. discriminate.
Defined.

(** C5, as stated, fails: a valid publish invocation with no broker at the
    URL passes validation and exits at the connect, with no publish
    attempted. *)
Lemma C5_no_publish_without_connection :
  mode hello = modePub /\ subject hello <> "" /\ msg hello <> ""
  /\ passes_validation hello = true
  /\ filter is_publish (trace unreachable hello) = []
  /\ outcome unreachable hello = Exited 1.
Proof. repeat split; try reflexivity; discriminate. Qed.

(** C5, amended: for every valid publish invocation validation succeeds;
    once the connection is established the publish is attempted exactly
    once, with the subject and the bytes of the -msg string; and whenever
    the process exits with code 0 a flush that succeeded follows that
    publish before the exit. *)
Theorem C5_publish_once_then_flush (w : World) (f : Flags) :
  mode f = modePub -> subject f <> "" -> msg f <> "" ->
  passes_validation f = true
  /\ (Connect_result w (natsURL f) APP = None ->
      filter is_publish (trace w f) =
        [CallPublish (subject f) (list_byte_of_string (msg f))
           (Publish_result w (subject f) (list_byte_of_string (msg f)))])
  /\ (outcome w f = Exited 0 ->
      exists t1 t2,
        trace w f =
          (t1 ++ [CallPublish (subject f) (list_byte_of_string (msg f)) None;
                  CallFlush None] ++ t2)%list
        /\ filter is_publish t1 = [] /\ filter is_publish t2 = []).
Proof.
  destruct f as [md s m u]. cbn [mode subject msg natsURL].
  intros -> Hs Hm. split.
  { unfold passes_validation. cbn.
    apply String.eqb_neq in Hs, Hm. rewrite Hs, Hm. reflexivity. }
  unfold trace, outcome. rewrite (main_pub w s m u Hs Hm). cbv zeta.
  destruct (Connect_result w u APP) eqn:Ec.
  { split; [discriminate|]. cbn. discriminate. }
  destruct (Publish_result w s (list_byte_of_string m)) eqn:Ep.
  { split; [reflexivity|]. cbn. discriminate. }
  destruct (Flush_result w) eqn:Ef.
  { split; [reflexivity|]. cbn. discriminate. }
  split; [reflexivity|]. intros _.
  exists [Output Stdout (LogLine (l_prefix (logger_of modePub)) (Connecting u));
          CallConnect u APP None;
          Output Stdout (LogLine (l_prefix (logger_of modePub)) ConnectedOk);
          Output Stdout (LogLine (l_prefix (logger_of modePub)) (Publishing s))],
         [Output Stdout (LogLine (l_prefix (logger_of modePub)) (Published s m));
          CallClose].
  repeat split.
Qed.

Lemma C5_publish_once_then_flush_witness :
  filter is_publish (trace (fine None []) hello) =
    [CallPublish "greetings" (list_byte_of_string "Hello NATS World!") None]
  /\ exists t1 t2,
       trace (fine None []) hello =
         (t1 ++ [CallPublish "greetings"
                   (list_byte_of_string "Hello NATS World!") None;
                 CallFlush None] ++ t2)%list
       /\ filter is_publish t1 = [] /\ filter is_publish t2 = [].
Proof.
  destruct (C5_publish_once_then_flush (fine None []) hello eq_refl)
    as (_ & H1 & H2); try discriminate.
  split; [exact (H1 eq_refl) | exact (H2 eq_refl)].
Defined.

(** C6, as stated, fails: at a connection failure the process exits with
    code 1 and its diagnostic is the logger's line, which goes to standard
    output; nothing is written to standard error. *)
Lemma C6_connect_failure_not_on_stderr :
  scenario unreachable hello = Fails ConnectionFailure
  /\ outcome unreachable hello = Exited 1
  /\ trace unreachable hello =
       [Output Stdout (LogLine "NATS-BASIC [pub] " (Connecting DefaultURL));
        CallConnect DefaultURL APP
          (Some "nats: no servers available for connection");
        Output Stdout
          (LogLine "NATS-BASIC [pub] "
             (ConnectFailed DefaultURL
                "nats: no servers available for connection"))]
  /\ filter on_stderr (trace unreachable hello) = [].
Proof. repeat split. Qed.

(** C6, amended: the exit code is 0 on normal termination and 1 on
    validation, connection, publish, flush and subscribe failure.  On a
    validation failure the diagnostic and the usage text are written to
    standard error; on the other failures the diagnostic is the last line
    of the logger, written to standard output, and nothing goes to
    standard error. *)
Theorem C6_exit_codes_and_diagnostics (w : World) (f : Flags) :
  match scenario w f with
  | Normal => outcome w f = Exited 0
  | Waits => outcome w f = Blocked
  | Fails ValidationFailure =>
      outcome w f = Exited 1
      /\ exists d, diagnostic ValidationFailure d = true
                   /\ trace w f = [Output Stderr d; Output Stderr UsageText]
  | Fails k =>
      outcome w f = Exited 1
      /\ (exists t d, diagnostic k d = true
                      /\ trace w f = (t ++ [Output Stdout d])%list)
      /\ filter on_stderr (trace w f) = []
  end.
Proof.
  unfold scenario, outcome, trace.
  destruct (passes_validation f) eqn:V; cbn [negb].
  2:{ rewrite (main_invalid w f V). split; [reflexivity|].
      exists (validation_error f). split; [|reflexivity].
      unfold validation_error.
      destruct ((mode f =? "") || (subject f =? "")); [reflexivity|].
      destruct (negb (mode f =? modePub) && negb (mode f =? modeSub));
        reflexivity. }
  destruct (flags_cases f V) as [(s & m & u & -> & Hs & Hm)
                                |(s & m & u & -> & Hs)];
    cbn [mode subject msg natsURL].
  - rewrite (main_pub w s m u Hs Hm). cbv zeta.
    change (modePub =? modePub) with true. cbv iota.
    destruct (Connect_result w u APP) as [e|];
      [|destruct (Publish_result w s (list_byte_of_string m)) as [e|];
        [|destruct (Flush_result w) as [e|]]];
      cbn [fst snd outcome_of]; try reflexivity;
      (split; [reflexivity|]); (split; [|sift; reflexivity]).
    + eexists [_; _], _. split; [|reflexivity]. reflexivity.
    + eexists [_; _; _; _; _], _. split; [|reflexivity]. reflexivity.
    + eexists [_; _; _; _; _; _], _. split; [|reflexivity]. reflexivity.
  - rewrite (main_sub w s m u Hs). cbv zeta.
    change (modeSub =? modePub) with false. cbv iota.
    destruct (Connect_result w u APP) as [e|];
      [|destruct (Subscribe_result w s) as [e|];
        [|destruct (signal w)]];
      cbn [fst snd outcome_of]; try reflexivity;
      (split; [reflexivity|]); (split; [|sift; reflexivity]).
    + eexists [_; _], _. split; [|reflexivity]. reflexivity.
    + eexists [_; _; _; _; _], _. split; [|reflexivity]. reflexivity.
Qed.

(** A drain is only ever called at the shutdown of a subscribe invocation
    that connected, subscribed and received its signal. *)
Lemma drain_called (w : World) (f : Flags) (r : option error) :
  In (CallDrain r) (trace w f) ->
  exists s m u sig,
    f = {| mode := modeSub; subject := s; msg := m; natsURL := u |}
    /\ s <> "" /\ Connect_result w u APP = None
    /\ Subscribe_result w s = None /\ signal w = Some sig
    /\ r = Drain_result w.
Proof.
  unfold trace. intros H.
  destruct (passes_validation f) eqn:V.
  2:{ rewrite (main_invalid w f V) in H. cbn in H.
      destruct H as [H|[H|[]]]; discriminate. }
  destruct (flags_cases f V) as [(s & m & u & -> & Hs & Hm)
                                |(s & m & u & -> & Hs)].
  - exfalso. rewrite (main_pub w s m u Hs Hm) in H. cbv zeta in H.
    destruct (Connect_result w u APP);
      [|destruct (Publish_result w s (list_byte_of_string m));
        [|destruct (Flush_result w)]];
      cbn in H; repeat (destruct H as [H|H]; [discriminate|]); exact H.
  - rewrite (main_sub w s m u Hs) in H. cbv zeta in H.
    destruct (Connect_result w u APP) eqn:Ec.
    { exfalso. cbn in H. repeat (destruct H as [H|H]; [discriminate|]). exact H. }
    destruct (Subscribe_result w s) eqn:Eb.
    { exfalso. cbn in H. repeat (destruct H as [H|H]; [discriminate|]). exact H. }
    destruct (signal w) as [sig|] eqn:Eg.
    + exists s, m, u, sig. repeat split; try assumption.
      cbn [fst app In] in H.
      repeat (destruct H as [H|H]; [discriminate|]).
      apply in_app_or in H. destruct H as [H|H].
      { apply In_deliveries in H. destruct H as (? & ? & ? & ? & H).
        discriminate. }
      cbn [In] in H. destruct H as [H|H]; [discriminate|].
      destruct H as [H|H]; [now inversion H|].
      exfalso. destruct (Drain_result w), (Unsubscribe_result w); cbn in H;
        repeat (destruct H as [H|H]; [discriminate|]); exact H.
    + exfalso. cbn [fst app In] in H.
      repeat (destruct H as [H|H]; [discriminate|]).
      apply In_deliveries in H. destruct H as (? & ? & ? & ? & H). discriminate.
Qed.

(** C7: when the drain of the graceful shutdown returns an error, the error
    is logged and nothing else changes: the farewell is logged, the
    deferred unsubscribe and close run, and the process ends with exit
    code 0. *)
Theorem C7_drain_error_not_escalated (w : World) (f : Flags) (e : error) :
  In (CallDrain (Some e)) (trace w f) ->
  outcome w f = Exited 0
  /\ exists t,
       trace w f =
         (t ++ [CallDrain (Some e);
                Output Stdout (LogLine (l_prefix (logger_of modeSub)) (DrainError e));
                Output Stdout (LogLine (l_prefix (logger_of modeSub)) Bye);
                CallUnsubscribe (Unsubscribe_result w)]
            ++ logged (logger_of modeSub) UnsubscribeError (Unsubscribe_result w)
            ++ [CallClose])%list.
Proof.
  intros H.
  destruct (drain_called w f _ H) as (s & m & u & sig & -> & Hs & Ec & Eb & Eg & Ed).
  unfold outcome, trace. rewrite (main_sub w s m u Hs). cbv zeta.
  rewrite Ec, Eb, Eg, <- Ed. cbn [fst snd outcome_of]. split; [reflexivity|].
  exists ([Output Stdout (LogLine (l_prefix (logger_of modeSub)) (Connecting u));
           CallConnect u APP None;
           Output Stdout (LogLine (l_prefix (logger_of modeSub)) ConnectedOk);
           Output Stdout (LogLine (l_prefix (logger_of modeSub)) (Subscribing s));
           CallSubscribe s None; CallNotify [SIGINT; SIGTERM]]
          ++ deliveries (logger_of modeSub) (inbound w)
          ++ [Output Stdout (LogLine (l_prefix (logger_of modeSub)) (GotSignal sig))])%list.
  cbn [logged app l_out]. rewrite <- !app_assoc. reflexivity.
Qed.

Lemma C7_drain_error_not_escalated_witness :
  outcome drain_fails listen = Exited 0
  /\ exists t,
       trace drain_fails listen =
         (t ++ [CallDrain (Some "nats: connection closed");
                Output Stdout
                  (LogLine "NATS-BASIC [sub] " (DrainError "nats: connection closed"));
                Output Stdout (LogLine "NATS-BASIC [sub] " Bye);
                CallUnsubscribe (Some "nats: connection closed")]
            ++ [Output Stdout
                  (LogLine "NATS-BASIC [sub] "
                     (UnsubscribeError "nats: connection closed"))]
            ++ [CallClose])%list.
Proof.
  apply (C7_drain_error_not_escalated drain_fails listen "nats: connection closed").
  vm_compute. do 7 right. left. reflexivity.
Defined.

Lemma State_eqb_refl (s : State) : State_eqb s s = true.
Proof. destruct s; reflexivity. Qed.

Lemma walk_app (s : State) (t1 t2 : list Event) :
  walk s (t1 ++ t2) = (walk s t1 ++ walk (final s t1) t2)%list.
Proof.
  revert s. induction t1 as [|e t1 IH]; intros s; [reflexivity|].
  cbn [app walk final fold_left].
  destruct (State_eqb (observe s e) s) eqn:E.
  - assert (observe s e = s) as -> by (destruct (observe s e), s; now try discriminate).
    apply IH.
  - cbn [app]. f_equal. apply IH.
Qed.

Lemma final_app (s : State) (t1 t2 : list Event) :
  final s (t1 ++ t2) = final (final s t1) t2.
Proof. apply fold_left_app. Qed.

Lemma walk_deliveries (s : State) (l : Logger) (ms : list Msg) :
  walk s (deliveries l ms) = [] /\ final s (deliveries l ms) = s.
Proof.
  induction ms as [|m ms [IH1 IH2]]; [split; reflexivity|].
  cbn [deliveries map walk final fold_left observe].
  rewrite State_eqb_refl. split; assumption.
Qed.

(** The four paths of a subscribe invocation, with the way the process
    ends on each. *)
Lemma sub_paths (w : World) (f : Flags) :
  mode f = modeSub ->
  (outcome w f = Exited 1 /\ state_path w f = [Idle])
  \/ (outcome w f = Exited 1 /\ state_path w f = [Idle; Connected])
  \/ (outcome w f = Blocked /\ state_path w f = [Idle; Connected; Subscribed])
  \/ (outcome w f = Exited 0 /\ state_path w f = chain).
Proof.
  intros Hmode. unfold state_path, outcome, trace.
  destruct (passes_validation f) eqn:V.
  2:{ rewrite (main_invalid w f V). left. split; reflexivity. }
  destruct (flags_cases f V) as [(s & m & u & -> & Hs & Hm)
                                |(s & m & u & -> & Hs)]; [discriminate|].
  rewrite (main_sub w s m u Hs). cbv zeta.
  destruct (Connect_result w u APP); [left; split; reflexivity|].
  destruct (Subscribe_result w s); [right; left; split; reflexivity|].
  destruct (walk_deliveries Subscribed (logger_of modeSub) (inbound w))
    as [Wd Fd].
  destruct (signal w) as [sig|]; right; right; [right|left];
    (split; [reflexivity|]);
    cbn [fst snd outcome_of app walk observe State_eqb].
  - rewrite walk_app, Wd. unfold final in *. rewrite Fd.
    destruct (Drain_result w), (Unsubscribe_result w); reflexivity.
  - now rewrite Wd.
Qed.

(** A subscribe run that is still waiting for its signal sits in
    [Subscribed]. *)
Lemma waiting_path (w : World) (f : Flags) :
  mode f = modeSub -> outcome w f = Blocked ->
  state_path w f = [Idle; Connected; Subscribed].
Proof.
  intros Hmode Hb.
  destruct (sub_paths w f Hmode) as [[E P]|[[E P]|[[E P]|[E P]]]];
    rewrite E in Hb; try discriminate. exact P.
Qed.




Lemma received_app (t1 t2 : list Event) :
  received (t1 ++ t2) = (received t1 ++ received t2)%list.
Proof.
  induction t1 as [|e t1 IH]; [reflexivity|].
  destruct e as [st [| | | | pre []]| | | | | | | |]; cbn; rewrite IH; reflexivity.
Qed.

Lemma received_deliveries (l : Logger) (ms : list Msg) :
  received (deliveries l ms) =
  map (fun m => (Subject m, string_of_list_byte (Data m))) ms.
Proof.
  unfold deliveries.
  induction ms as [|m ms IH]; [reflexivity|].
  cbn [map received]. now rewrite IH.
Qed.

(** A publish invocation that exits with code 0 handed the broker exactly
    one message: its subject and the bytes of its -msg string. *)
Lemma sent_by_publisher (w : World) (s m u : string) :
  s <> "" -> outcome w (pub s m u) = Exited 0 ->
  sent (trace w (pub s m u)) = [{| Subject := s; Data := list_byte_of_string m |}].
Proof.
  intros Hs. unfold outcome, trace, pub.
  destruct (m =? "") eqn:Em.
  { rewrite main_invalid; [discriminate|].
    unfold passes_validation. cbn. rewrite Em.
    destruct (s =? ""); reflexivity. }
  apply String.eqb_neq in Em.
  rewrite (main_pub w s m u Hs Em). cbv zeta.
  destruct (Connect_result w u APP); [discriminate|].
  destruct (Publish_result w s (list_byte_of_string m)); [discriminate|].
  destruct (Flush_result w); [discriminate|]. reflexivity.
Qed.

(** What the callback of a subscriber that connected and subscribed logs:
    subject and payload, as a string, of every message the broker
    delivered. *)
Lemma received_by_subscriber (w : World) (s u : string) :
  s <> "" -> Connect_result w u APP = None -> Subscribe_result w s = None ->
  received (trace w (sub s u)) =
  map (fun m => (Subject m, string_of_list_byte (Data m))) (inbound w).
Proof.
  intros Hs Ec Eb. unfold trace, sub.
  rewrite (main_sub w s "" u Hs). cbv zeta. rewrite Ec, Eb.
  destruct (signal w) as [sig|];
    cbn [fst app received]; [|apply received_deliveries].
  rewrite received_app, received_deliveries.
  destruct (Drain_result w), (Unsubscribe_result w); cbn; apply app_nil_r.
Qed.

(** C9: with a subscriber on [events.>], the publish to events.user.login
    and the publish to events.order.created each yield exactly one
    delivered message; its payload is the byte sequence of the -msg
    string, and the callback logs that same string. *)
Theorem C9_wildcard_round_trip (wp1 wp2 ws : World) (m1 m2 u1 u2 us : string) :
  outcome wp1 (pub "events.user.login" m1 u1) = Exited 0 ->
  outcome wp2 (pub "events.order.created" m2 u2) = Exited 0 ->
  Connect_result ws us APP = None ->
  Subscribe_result ws "events.>" = None ->
  inbound ws =
    Broker.route "events.>"
      (sent (trace wp1 (pub "events.user.login" m1 u1)) ++
       sent (trace wp2 (pub "events.order.created" m2 u2))) ->
  Broker.route "events.>"
    (sent (trace wp1 (pub "events.user.login" m1 u1))) =
    [{| Subject := "events.user.login"; Data := list_byte_of_string m1 |}]
  /\ Broker.route "events.>"
       (sent (trace wp2 (pub "events.order.created" m2 u2))) =
       [{| Subject := "events.order.created"; Data := list_byte_of_string m2 |}]
  /\ received (trace ws (sub "events.>" us)) =
       [("events.user.login", m1); ("events.order.created", m2)].
Proof.
  intros H1 H2 Ec Eb Hin.
  rewrite (sent_by_publisher wp1 _ m1 u1) in * by (assumption || discriminate).
  rewrite (sent_by_publisher wp2 _ m2 u2) in * by (assumption || discriminate).
  repeat split.
  rewrite (received_by_subscriber ws "events.>" us) by (assumption || discriminate).
  rewrite Hin. cbn [app]. unfold Broker.route.
  cbn [filter Subject].
  change (Broker.matches (Broker.tokens "events.>")
            (Broker.tokens "events.user.login")) with true.
  change (Broker.matches (Broker.tokens "events.>")
            (Broker.tokens "events.order.created")) with true.
  cbn [map Subject Data].
  now rewrite !string_of_list_byte_of_string.
Qed.

Lemma C9_wildcard_round_trip_witness :
  let ws := fine (Some SIGINT)
              (Broker.route "events.>"
                 (sent (trace (fine None []) login) ++
                  sent (trace (fine None []) order))) in
  Broker.route "events.>" (sent (trace (fine None []) login)) =
    [{| Subject := "events.user.login";
        Data := list_byte_of_string "{user:alice}" |}]
  /\ Broker.route "events.>" (sent (trace (fine None []) order)) =
       [{| Subject := "events.order.created";
           Data := list_byte_of_string "{order:42}" |}]
  /\ received (trace ws all_events) =
       [("events.user.login", "{user:alice}");
        ("events.order.created", "{order:42}")].
Proof.
  apply (C9_wildcard_round_trip (fine None []) (fine None []) _
           "{user:alice}" "{order:42}" DefaultURL DefaultURL DefaultURL);
    reflexivity.
Defined.

(** C10: the -url value plays no part in validation: replacing it by any
    string, the empty one included, leaves the validation blocks with the
    same result, and whenever validation passes that very string is the
    argument of the one connect call. *)
Theorem C10_url_not_validated (w : World) (f : Flags) (u : string) :
  passes_validation (set_url u f) = passes_validation f
  /\ validation (set_url u f) = validation f
  /\ filter is_connect (trace w (set_url u f)) =
       if passes_validation f
       then [CallConnect u APP (Connect_result w u APP)]
       else [].
Proof.
  split; [reflexivity|]. split; [reflexivity|].
  assert (E : passes_validation (set_url u f) = passes_validation f)
    by reflexivity.
  unfold trace. destruct (passes_validation f) eqn:V.
  2:{ rewrite (main_invalid w _ E). reflexivity. }
  destruct (flags_cases _ E) as [(s & m & u' & Hf & Hs & Hm)
                                |(s & m & u' & Hf & Hs)];
    rewrite Hf; injection Hf as _ _ _ <-.
  - rewrite (main_pub w s m u Hs Hm). cbv zeta.
    destruct (Connect_result w u APP);
      [|destruct (Publish_result w s (list_byte_of_string m));
        [|destruct (Flush_result w)]]; reflexivity.
  - rewrite (main_sub w s m u Hs). cbv zeta.
    destruct (Connect_result w u APP);
      [|destruct (Subscribe_result w s);
        [|destruct (signal w);
          [destruct (Drain_result w), (Unsubscribe_result w)|]]];
      sift; reflexivity.
Qed.

(** * Further properties of [main], [publish] and [subscribe] *)

Lemma forallb_deliveries (p : Event -> bool) (l : Logger) (ms : list Msg) :
  (forall subj pay,
     p (Output (l_out l) (LogLine (l_prefix l) (Received subj pay))) = true) ->
  forallb p (deliveries l ms) = true.
Proof.
  intros Hp. induction ms as [|m ms IH]; [reflexivity|].
  cbn. rewrite Hp. exact IH.
Qed.

(** X1: A mode that is neither empty nor "pub" nor "sub" is rejected by the
    second validation block: the error line quotes the two modes and the
    value given, the usage text follows, and the process exits with code 1
    without a connect. *)
Theorem unknown_mode_rejected (w : World) (f : Flags) :
  mode f <> "" -> subject f <> "" -> mode f <> modePub -> mode f <> modeSub ->
  main w f =
    ([Output Stderr (ErrBadMode "pub" "sub" (mode f)); Output Stderr UsageText],
     inr (Exited 1)).
Proof.
  intros H0 Hs Hp Hb.
  apply String.eqb_neq in H0, Hs, Hp, Hb.
  assert (V : passes_validation f = false).
  { unfold passes_validation. rewrite H0, Hs, Hp, Hb. reflexivity. }
  rewrite (main_invalid w f V). unfold validation_error.
  rewrite H0, Hs, Hp, Hb. reflexivity.
Qed.

Lemma unknown_mode_rejected_witness :
  main (fine None []) long_mode =
    ([Output Stderr (ErrBadMode "pub" "sub" "publish"); Output Stderr UsageText],
     inr (Exited 1)).
Proof.
  apply (unknown_mode_rejected (fine None []) long_mode); discriminate.
Defined.

Lemma connect_calls (w : World) (f : Flags) :
  filter is_connect (trace w f) =
  if passes_validation f
  then [CallConnect (natsURL f) APP (Connect_result w (natsURL f) APP)]
  else [].
Proof.
  unfold trace. destruct (passes_validation f) eqn:V.
  2:{ rewrite (main_invalid w f V). reflexivity. }
  destruct (flags_cases f V) as [(s & m & u & -> & Hs & Hm)
                                |(s & m & u & -> & Hs)]; cbn [natsURL].
  - rewrite (main_pub w s m u Hs Hm). cbv zeta.
    destruct (Connect_result w u APP);
      [|destruct (Publish_result w s (list_byte_of_string m));
        [|destruct (Flush_result w)]]; reflexivity.
  - rewrite (main_sub w s m u Hs). cbv zeta.
    destruct (Connect_result w u APP);
      [|destruct (Subscribe_result w s);
        [|destruct (signal w);
          [destruct (Drain_result w), (Unsubscribe_result w)|]]];
      sift; reflexivity.
Qed.

Lemma passes_validation_shape (f : Flags) :
  passes_validation f = true <->
  (mode f = modePub /\ subject f <> "" /\ msg f <> "")
  \/ (mode f = modeSub /\ subject f <> "").
Proof.
  split.
  - intros P. destruct (flags_cases f P) as [(s & m & u & -> & Hs & Hm)
                                            |(s & m & u & -> & Hs)];
      [left|right]; repeat split; assumption.
  - unfold passes_validation.
    intros [(-> & Hs & Hm)|(-> & Hs)];
      apply String.eqb_neq in Hs; try apply String.eqb_neq in Hm;
      rewrite Hs, ?Hm; reflexivity.
Qed.

(** X2: The process calls connect exactly for the command lines of the two
    accepted shapes: mode "pub" with a subject and a message, or mode "sub"
    with a subject; no other command line reaches the broker. *)
Theorem connect_attempted_iff (w : World) (f : Flags) :
  filter is_connect (trace w f) <> [] <->
  (mode f = modePub /\ subject f <> "" /\ msg f <> "")
  \/ (mode f = modeSub /\ subject f <> "").
Proof.
  rewrite connect_calls, <- passes_validation_shape.
  destruct (passes_validation f); split; intros H;
    try reflexivity; try discriminate; now elim H.
Qed.

(** X3: In mode "sub" the -msg value is ignored: whatever it is, the run is
    the same. *)
Theorem msg_ignored_in_sub_mode (w : World) (f : Flags) (m : string) :
  mode f = modeSub -> main w (set_msg m f) = main w f.
Proof.
  destruct f as [md s m0 u]. cbn [mode]. intros ->. unfold set_msg.
  cbn [mode subject msg natsURL].
  destruct (s =? "") eqn:Es.
  - rewrite !main_invalid;
      try (unfold passes_validation; cbn; rewrite Es; reflexivity).
    reflexivity.
  - apply String.eqb_neq in Es. now rewrite !main_sub.
Qed.

Lemma msg_ignored_in_sub_mode_witness :
  main (fine (Some SIGINT) []) (set_msg "Hello NATS World!" listen)
  = main (fine (Some SIGINT) []) listen.
Proof.
  apply (msg_ignored_in_sub_mode (fine (Some SIGINT) []) listen). reflexivity.
Defined.

(** X4: The process waits without end in one situation only: mode "sub" with a
    subject, the connection and the subscription established, and no
    signal sent.  Every other run ends. *)
Theorem waits_only_for_signal (w : World) (f : Flags) :
  outcome w f = Blocked <->
  mode f = modeSub /\ subject f <> ""
  /\ Connect_result w (natsURL f) APP = None
  /\ Subscribe_result w (subject f) = None
  /\ signal w = None.
Proof.
  unfold outcome. split.
  - destruct (passes_validation f) eqn:V.
    2:{ rewrite (main_invalid w f V). discriminate. }
    destruct (flags_cases f V) as [(s & m & u & -> & Hs & Hm)
                                  |(s & m & u & -> & Hs)];
      cbn [mode subject natsURL].
    + rewrite (main_pub w s m u Hs Hm). cbv zeta.
      destruct (Connect_result w u APP);
        [|destruct (Publish_result w s (list_byte_of_string m));
          [|destruct (Flush_result w)]]; discriminate.
    + rewrite (main_sub w s m u Hs). cbv zeta.
      destruct (Connect_result w u APP); [discriminate|].
      destruct (Subscribe_result w s); [discriminate|].
      destruct (signal w); [discriminate|]. repeat split; assumption.
  - destruct f as [md s m u]. cbn [mode subject natsURL].
    intros (-> & Hs & Ec & Eb & Eg).
    rewrite (main_sub w s m u Hs). cbv zeta. rewrite Ec, Eb, Eg. reflexivity.
Qed.

(** X5: From the parsed flag values on, a run that ends with exit code 0
    has closed the connection: the close is its last action, and the only
    close.  (An exit inside [flag.Parse], as for -h, comes before the part
    of [main] that is embedded here.) *)
Theorem normal_exit_closes_last (w : World) (f : Flags) :
  outcome w f = Exited 0 ->
  exists t, trace w f = (t ++ [CallClose])%list /\ filter is_close t = [].
Proof.
  unfold outcome, trace.
  destruct (passes_validation f) eqn:V.
  2:{ rewrite (main_invalid w f V). discriminate. }
  destruct (flags_cases f V) as [(s & m & u & -> & Hs & Hm)
                                |(s & m & u & -> & Hs)].
  - rewrite (main_pub w s m u Hs Hm). cbv zeta.
    destruct (Connect_result w u APP);
      [|destruct (Publish_result w s (list_byte_of_string m));
        [|destruct (Flush_result w)]]; try discriminate.
    intros _. eexists [_; _; _; _; _; _; _]. split; reflexivity.
  - rewrite (main_sub w s m u Hs). cbv zeta.
    destruct (Connect_result w u APP); [discriminate|].
    destruct (Subscribe_result w s); [discriminate|].
    destruct (signal w) as [sig|]; [|discriminate].
    intros _. cbn [fst].
    eexists (_ :: _ :: _ :: _ :: _ :: _ :: deliveries _ _ ++ _ :: _ ::
             logged _ _ _ ++ _ :: _ :: logged _ _ _)%list.
    split.
    + cbn [app]. rewrite <- !app_assoc. cbn [app].
      rewrite <- !app_assoc. reflexivity.
    + destruct (Drain_result w), (Unsubscribe_result w); sift; reflexivity.
Qed.

Lemma normal_exit_closes_last_witness :
  exists t, trace (fine None []) hello = (t ++ [CallClose])%list
            /\ filter is_close t = [].
Proof.
  apply (normal_exit_closes_last (fine None []) hello). reflexivity.
Defined.

(** X6: At the shutdown of a subscriber the connection is taken down in one
    order: drain, then the deferred unsubscribe, then the deferred close,
    each called once. *)
Theorem shutdown_order (w : World) (f : Flags) :
  mode f = modeSub -> outcome w f = Exited 0 ->
  filter is_teardown (trace w f) =
    [CallDrain (Drain_result w); CallUnsubscribe (Unsubscribe_result w);
     CallClose].
Proof.
  unfold outcome, trace. intros Hmode.
  destruct (passes_validation f) eqn:V.
  2:{ rewrite (main_invalid w f V). discriminate. }
  destruct (flags_cases f V) as [(s & m & u & -> & Hs & Hm)
                                |(s & m & u & -> & Hs)]; [discriminate|].
  rewrite (main_sub w s m u Hs). cbv zeta.
  destruct (Connect_result w u APP); [discriminate|].
  destruct (Subscribe_result w s); [discriminate|].
  destruct (signal w) as [sig|]; [|discriminate]. intros _.
  destruct (Drain_result w), (Unsubscribe_result w);
    repeat (cbn [filter app fst is_teardown logged];
            rewrite ?filter_app, ?filter_deliveries by reflexivity);
    reflexivity.
Qed.

Lemma shutdown_order_witness :
  filter is_teardown (trace drain_fails listen) =
    [CallDrain (Some "nats: connection closed");
     CallUnsubscribe (Some "nats: connection closed"); CallClose].
Proof.
  apply (shutdown_order drain_fails listen); reflexivity.
Defined.

(** An unsubscribe is only ever called by the deferred function of a
    subscriber that received its signal. *)
Lemma unsubscribe_called (w : World) (f : Flags) (r : option error) :
  In (CallUnsubscribe r) (trace w f) ->
  exists s m u sig,
    f = {| mode := modeSub; subject := s; msg := m; natsURL := u |}
    /\ s <> "" /\ Connect_result w u APP = None
    /\ Subscribe_result w s = None /\ signal w = Some sig
    /\ r = Unsubscribe_result w.
Proof.
  unfold trace. intros H.
  destruct (passes_validation f) eqn:V.
  2:{ rewrite (main_invalid w f V) in H. cbn in H.
      destruct H as [H|[H|[]]]; discriminate. }
  destruct (flags_cases f V) as [(s & m & u & -> & Hs & Hm)
                                |(s & m & u & -> & Hs)].
  - exfalso. rewrite (main_pub w s m u Hs Hm) in H. cbv zeta in H.
    destruct (Connect_result w u APP);
      [|destruct (Publish_result w s (list_byte_of_string m));
        [|destruct (Flush_result w)]];
      cbn in H; repeat (destruct H as [H|H]; [discriminate|]); exact H.
  - rewrite (main_sub w s m u Hs) in H. cbv zeta in H.
    destruct (Connect_result w u APP) eqn:Ec.
    { exfalso. cbn in H. repeat (destruct H as [H|H]; [discriminate|]). exact H. }
    destruct (Subscribe_result w s) eqn:Eb.
    { exfalso. cbn in H. repeat (destruct H as [H|H]; [discriminate|]). exact H. }
    destruct (signal w) as [sig|] eqn:Eg.
    + exists s, m, u, sig. repeat split; try assumption.
      cbn [fst app In] in H.
      repeat (destruct H as [H|H]; [discriminate|]).
      apply in_app_or in H. destruct H as [H|H].
      { apply In_deliveries in H. destruct H as (? & ? & ? & ? & H).
        discriminate. }
      cbn [In] in H. do 2 (destruct H as [H|H]; [discriminate|]).
      apply in_app_or in H. destruct H as [H|H].
      { destruct (Drain_result w); cbn in H;
          repeat (destruct H as [H|H]; [discriminate|]); elim H. }
      cbn [In] in H. destruct H as [H|H]; [discriminate|].
      destruct H as [H|H]; [now inversion H|].
      exfalso. destruct (Unsubscribe_result w); cbn in H;
        repeat (destruct H as [H|H]; [discriminate|]); exact H.
    + exfalso. cbn [fst app In] in H.
      repeat (destruct H as [H|H]; [discriminate|]).
      apply In_deliveries in H. destruct H as (? & ? & ? & ? & H). discriminate.
Qed.

(** X7: An error of the deferred unsubscribe is logged and goes no further:
    the close still follows and the process exits with code 0. *)
Theorem unsubscribe_error_not_fatal (w : World) (f : Flags) (e : error) :
  In (CallUnsubscribe (Some e)) (trace w f) ->
  outcome w f = Exited 0
  /\ exists t,
       trace w f =
         (t ++ [CallUnsubscribe (Some e);
                Output Stdout
                  (LogLine (l_prefix (logger_of modeSub)) (UnsubscribeError e));
                CallClose])%list.
Proof.
  intros H.
  destruct (unsubscribe_called w f _ H)
    as (s & m & u & sig & -> & Hs & Ec & Eb & Eg & Eu).
  unfold outcome, trace. rewrite (main_sub w s m u Hs). cbv zeta.
  rewrite Ec, Eb, Eg, <- Eu. cbn [fst snd outcome_of]. split; [reflexivity|].
  eexists (_ :: _ :: _ :: _ :: _ :: _ :: deliveries _ _ ++ _ :: _ ::
           logged _ _ _ ++ [_])%list.
  cbn [logged app l_out]. rewrite <- !app_assoc. cbn [app].
  rewrite <- !app_assoc. reflexivity.
Qed.

Lemma unsubscribe_error_not_fatal_witness :
  outcome drain_fails listen = Exited 0
  /\ exists t,
       trace drain_fails listen =
         (t ++ [CallUnsubscribe (Some "nats: connection closed");
                Output Stdout
                  (LogLine "NATS-BASIC [sub] "
                     (UnsubscribeError "nats: connection closed"));
                CallClose])%list.
Proof.
  apply (unsubscribe_error_not_fatal drain_fails listen "nats: connection closed").
  vm_compute. do 10 right. left. reflexivity.
Defined.

(** Close a goal from a membership, in an explicit trace, of an event that
    is not there. *)
Ltac refute_in H :=
  cbn [fst app In logged] in H;
  lazymatch type of H with
  | False => elim H
  | _ \/ _ => destruct H as [H|H]; [discriminate H | refute_in H]
  | In _ (deliveries _ _) =>
      apply In_deliveries in H; destruct H as (? & ? & ? & ? & H);
      discriminate H
  | In _ (_ ++ _) => apply in_app_or in H; destruct H as [H|H]; refute_in H
  end.

(** X8: A failed publish is fatal: its error line is the last thing the
    process does, no flush is attempted, and the exit code is 1. *)
Theorem failed_publish_is_fatal (w : World) (f : Flags) (s : string)
    (d : list byte) (e : error) :
  In (CallPublish s d (Some e)) (trace w f) ->
  outcome w f = Exited 1
  /\ filter is_flush (trace w f) = []
  /\ exists t,
       trace w f =
         (t ++ [CallPublish s d (Some e);
                Output Stdout
                  (LogLine (l_prefix (logger_of modePub)) (PublishFailed e))])%list.
Proof.
  unfold outcome, trace. intros H.
  destruct (passes_validation f) eqn:V.
  2:{ rewrite (main_invalid w f V) in H. cbn in H.
      destruct H as [H|[H|[]]]; discriminate. }
  destruct (flags_cases f V) as [(s' & m & u & -> & Hs & Hm)
                                |(s' & m & u & -> & Hs)].
  - rewrite (main_pub w s' m u Hs Hm) in *. cbv zeta in *.
    destruct (Connect_result w u APP).
    { exfalso. cbn in H. repeat (destruct H as [H|H]; [discriminate|]). exact H. }
    destruct (Publish_result w s' (list_byte_of_string m)) eqn:Ep.
    + cbn in H. repeat (destruct H as [H|H]; [try discriminate|]); [|elim H].
      injection H as -> -> ->.
      repeat split. eexists [_; _; _; _]. reflexivity.
    + exfalso. destruct (Flush_result w); cbn in H;
        repeat (destruct H as [H|H]; [discriminate|]); exact H.
  - exfalso. rewrite (main_sub w s' m u Hs) in H. cbv zeta in H.
    destruct (Connect_result w u APP);
      [|destruct (Subscribe_result w s');
        [|destruct (signal w);
          [destruct (Drain_result w), (Unsubscribe_result w)|]]];
      refute_in H.
Qed.

Lemma failed_publish_is_fatal_witness :
  outcome publish_fails hello = Exited 1
  /\ filter is_flush (trace publish_fails hello) = []
  /\ exists t,
       trace publish_fails hello =
         (t ++ [CallPublish "greetings" (list_byte_of_string "Hello NATS World!")
                  (Some "nats: maximum payload exceeded");
                Output Stdout
                  (LogLine "NATS-BASIC [pub] "
                     (PublishFailed "nats: maximum payload exceeded"))])%list.
Proof.
  apply (failed_publish_is_fatal publish_fails hello).
  vm_compute. do 4 right. left. reflexivity.
Defined.

(** X9: Nothing is done on a connection that was not established: a run that
    publishes, flushes, subscribes, drains, unsubscribes or closes began
    with a connect, to the -url value, that succeeded. *)
Theorem connection_used_only_after_connect (w : World) (f : Flags) :
  filter uses_connection (trace w f) <> [] ->
  exists t,
    trace w f =
      Output Stdout (LogLine (APP ++ " [" ++ mode f ++ "] ")
                       (Connecting (natsURL f)))
      :: CallConnect (natsURL f) APP None :: t.
Proof.
  unfold trace.
  destruct (passes_validation f) eqn:V.
  2:{ rewrite (main_invalid w f V). intros H. now elim H. }
  destruct (flags_cases f V) as [(s & m & u & -> & Hs & Hm)
                                |(s & m & u & -> & Hs)];
    cbn [mode natsURL].
  - rewrite (main_pub w s m u Hs Hm). cbv zeta.
    destruct (Connect_result w u APP); [intros H; now elim H|].
    intros _. destruct (Publish_result w s (list_byte_of_string m));
      [|destruct (Flush_result w)]; cbn [fst app]; eexists; reflexivity.
  - rewrite (main_sub w s m u Hs). cbv zeta.
    destruct (Connect_result w u APP); [intros H; now elim H|].
    intros _. destruct (Subscribe_result w s);
      [|destruct (signal w)]; cbn [fst app]; eexists; reflexivity.
Qed.

Lemma connection_used_only_after_connect_witness :
  exists t,
    trace (fine None []) hello =
      Output Stdout (LogLine "NATS-BASIC [pub] " (Connecting DefaultURL))
      :: CallConnect DefaultURL APP None :: t.
Proof.
  apply (connection_used_only_after_connect (fine None []) hello).
  discriminate.
Defined.

(** X10: Every line on standard output is a line of the logger and carries the
    prefix NATS-BASIC [mode]; standard error carries only the validation
    errors and the usage text, never a logger line. *)
Theorem writes_in_place (w : World) (f : Flags) :
  forallb (in_place (mode f)) (trace w f) = true.
Proof.
  unfold trace.
  destruct (passes_validation f) eqn:V.
  2:{ rewrite (main_invalid w f V). unfold validation_error.
      destruct ((mode f =? "") || (subject f =? "")); [reflexivity|].
      destruct (negb (mode f =? modePub) && negb (mode f =? modeSub));
        reflexivity. }
  destruct (flags_cases f V) as [(s & m & u & -> & Hs & Hm)
                                |(s & m & u & -> & Hs)];
    cbn [mode].
  - rewrite (main_pub w s m u Hs Hm). cbv zeta.
    destruct (Connect_result w u APP);
      [|destruct (Publish_result w s (list_byte_of_string m));
        [|destruct (Flush_result w)]]; reflexivity.
  - rewrite (main_sub w s m u Hs). cbv zeta.
    assert (D : forallb (in_place modeSub)
                  (deliveries (logger_of modeSub) (inbound w)) = true)
      by (apply forallb_deliveries; reflexivity).
    destruct (Connect_result w u APP);
      [|destruct (Subscribe_result w s);
        [|destruct (signal w);
          [destruct (Drain_result w), (Unsubscribe_result w)|]]];
      cbn [fst app forallb logged]; rewrite ?forallb_app, ?D; reflexivity.
Qed.

(** X11: The two modes do not mix: a run in mode "pub" never subscribes, waits
    for a signal, drains or unsubscribes, and a run in any other mode
    never publishes or flushes. *)
Theorem modes_do_not_mix (w : World) (f : Flags) :
  filter (if mode f =? modePub then subscribe_only else publish_only)
    (trace w f) = [].
Proof.
  unfold trace.
  destruct (passes_validation f) eqn:V.
  2:{ rewrite (main_invalid w f V). unfold validation_error.
      destruct (mode f =? modePub);
        destruct ((mode f =? "") || (subject f =? ""));
        try reflexivity;
        destruct (negb _ && negb (mode f =? modeSub)); reflexivity. }
  destruct (flags_cases f V) as [(s & m & u & -> & Hs & Hm)
                                |(s & m & u & -> & Hs)];
    cbn [mode].
  - rewrite (main_pub w s m u Hs Hm). cbv zeta.
    destruct (Connect_result w u APP);
      [|destruct (Publish_result w s (list_byte_of_string m));
        [|destruct (Flush_result w)]]; reflexivity.
  - rewrite (main_sub w s m u Hs). cbv zeta.
    change (modeSub =? modePub) with false. cbv iota.
    destruct (Connect_result w u APP);
      [|destruct (Subscribe_result w s);
        [|destruct (signal w);
          [destruct (Drain_result w), (Unsubscribe_result w)|]]];
      repeat (cbn [filter app fst publish_only logged];
              rewrite ?filter_app, ?filter_deliveries by reflexivity);
      reflexivity.
Qed.

(** X12: A subscriber that connected and subscribed logs every message the
    broker delivers, once and in the order of delivery, with the subject
    the message was published on and its payload read as a string. *)
Theorem callback_logs_every_message (w : World) (f : Flags) :
  mode f = modeSub -> subject f <> "" ->
  Connect_result w (natsURL f) APP = None ->
  Subscribe_result w (subject f) = None ->
  received (trace w f) =
    map (fun m => (Subject m, string_of_list_byte (Data m))) (inbound w).
Proof.
  destruct f as [md s m u]. cbn [mode subject natsURL].
  intros -> Hs Ec Eb. unfold trace.
  rewrite (main_sub w s m u Hs). cbv zeta. rewrite Ec, Eb.
  destruct (signal w) as [sig|];
    cbn [fst app received]; [|apply received_deliveries].
  rewrite received_app, received_deliveries.
  destruct (Drain_result w), (Unsubscribe_result w); cbn; apply app_nil_r.
Qed.

Lemma callback_logs_every_message_witness :
  received (trace (fine None [greeting; greeting]) listen) =
    [("greetings", "Hello NATS World!"); ("greetings", "Hello NATS World!")].
Proof.
  apply (callback_logs_every_message (fine None [greeting; greeting]) listen);
    try reflexivity; discriminate.
Defined.

(** * Properties of the shell scripts *)



























(** X18: When sourcing .env only assigns variables, the script with
    authentication starts the server only when none is running and .env
    exists, and always with the fixed options followed by a user and a
    password hash that are not empty: the values NATS_USER and
    NATS_ENCRYPTED_PASSWORD have after the source; its exit status is the
    server's. *)
Theorem server_started_only_when_safe (m : Scripts.Machine)
    (vars : string -> option string) (c : string) (a : list string) :
  Scripts.sourced_env m = Scripts.Assigns vars ->
  In (Scripts.Exec c a) (fst (Scripts.start_server_auth m)) ->
  let value n := match vars n with
                 | Some v => v
                 | None => Scripts.inherited m n
                 end in
  c = "nats-server"
  /\ a = ["-js"; "-DV"; "-sd"; "./nats_data"; "-m"; "8222";
          "--user"; value "NATS_USER";
          "--pass"; value "NATS_ENCRYPTED_PASSWORD"]
  /\ value "NATS_USER" <> "" /\ value "NATS_ENCRYPTED_PASSWORD" <> ""
  /\ Scripts.servers_running m = 0 /\ Scripts.env_exists m = true
  /\ snd (Scripts.start_server_auth m) = Scripts.server_status m a.
Proof.
  intros Hsrc. cbv zeta.
  unfold Scripts.start_server_auth, Scripts.prepare_dir. rewrite Hsrc.
  destruct (Scripts.servers_running m) as [|n] eqn:E; cbn [Nat.ltb Nat.leb].
  2:{ destruct (Scripts.data_dir_exists m); cbn;
      intros H; repeat (destruct H as [H|H]; [discriminate|]); elim H. }
  destruct (Scripts.env_exists m); cbn [negb].
  2:{ destruct (Scripts.data_dir_exists m); cbn;
      intros H; repeat (destruct H as [H|H]; [discriminate|]); elim H. }
  cbv zeta.
  set (user := match vars "NATS_USER" with
               | Some v => v
               | None => Scripts.inherited m "NATS_USER"
               end).
  set (hash := match vars "NATS_ENCRYPTED_PASSWORD" with
               | Some v => v
               | None => Scripts.inherited m "NATS_ENCRYPTED_PASSWORD"
               end).
  destruct (user =? "") eqn:U; cbn [orb].
  { destruct (Scripts.data_dir_exists m); cbn;
      intros H; repeat (destruct H as [H|H]; [discriminate|]); elim H. }
  destruct (hash =? "") eqn:P.
  { destruct (Scripts.data_dir_exists m); cbn;
      intros H; repeat (destruct H as [H|H]; [discriminate|]); elim H. }
  apply String.eqb_neq in U, P.
  destruct (Scripts.data_dir_exists m); cbn [app In fst snd Scripts.server_args];
    intros H; repeat (destruct H as [H|H]; [try discriminate|]);
    try (elim H); injection H as <- <-; repeat split; auto.
Qed.

Lemma server_started_only_when_safe_witness :
  "nats-server" = "nats-server"
  /\ ["-js"; "-DV"; "-sd"; "./nats_data"; "-m"; "8222";
      "--user"; "alice"; "--pass"; "$2a$11$x"]
     = ["-js"; "-DV"; "-sd"; "./nats_data"; "-m"; "8222";
        "--user"; "alice"; "--pass"; "$2a$11$x"]
  /\ "alice" <> "" /\ "$2a$11$x" <> ""
  /\ Scripts.servers_running idle_machine = 0
  /\ Scripts.env_exists idle_machine = true
  /\ snd (Scripts.start_server_auth idle_machine) =
     Scripts.server_status idle_machine
       ["-js"; "-DV"; "-sd"; "./nats_data"; "-m"; "8222";
        "--user"; "alice"; "--pass"; "$2a$11$x"].
Proof.
  apply (server_started_only_when_safe idle_machine
           (fun n => if n =? "NATS_USER" then Some "alice"
                     else if n =? "NATS_ENCRYPTED_PASSWORD"
                          then Some "$2a$11$x" else None)
           "nats-server"
           ["-js"; "-DV"; "-sd"; "./nats_data"; "-m"; "8222";
            "--user"; "alice"; "--pass"; "$2a$11$x"]).
  - reflexivity.
  - vm_compute. do 10 right. left. reflexivity.
Defined.

(** X19: Neither start script starts a second server: with a nats-server
    already running both stop with status 1 and run nothing, though the
    storage directory has been created by then if it was missing. *)
Theorem no_second_server (m : Scripts.Machine) :
  0 < Scripts.servers_running m ->
  snd (Scripts.start_server_auth m) = 1%Z
  /\ snd (Scripts.start_server_dev m) = 1%Z
  /\ filter Scripts.is_exec (fst (Scripts.start_server_auth m)) = []
  /\ filter Scripts.is_exec (fst (Scripts.start_server_dev m)) = []
  /\ filter Scripts.is_mkdir (fst (Scripts.start_server_auth m)) =
       (if Scripts.data_dir_exists m then [] else [Scripts.Mkdir "./nats_data"])
  /\ filter Scripts.is_mkdir (fst (Scripts.start_server_dev m)) =
       (if Scripts.data_dir_exists m then [] else [Scripts.Mkdir "./nats_data"]).
Proof.
  intros H. apply Nat.ltb_lt in H.
  unfold Scripts.start_server_auth, Scripts.start_server_dev,
    Scripts.prepare_dir.
  rewrite H. destruct (Scripts.data_dir_exists m); repeat split.
Qed.

Lemma no_second_server_witness :
  snd (Scripts.start_server_auth busy_machine) = 1%Z
  /\ snd (Scripts.start_server_dev busy_machine) = 1%Z
  /\ filter Scripts.is_exec (fst (Scripts.start_server_auth busy_machine)) = []
  /\ filter Scripts.is_exec (fst (Scripts.start_server_dev busy_machine)) = []
  /\ filter Scripts.is_mkdir (fst (Scripts.start_server_auth busy_machine)) =
       [Scripts.Mkdir "./nats_data"]
  /\ filter Scripts.is_mkdir (fst (Scripts.start_server_dev busy_machine)) =
       [Scripts.Mkdir "./nats_data"].
Proof.
  apply (no_second_server busy_machine). vm_compute. reflexivity.
Defined.
